(** * Neon Vault: the session state machine of [src/App.tsx]

    A shallow embedding of the casino widget's logic: the [GameState]
    record held by the [App] component, its three entry points
    ([handleWin], [setGame], [setIsSpinning]) and the three game
    modules ([SlotMachine.spin], [CoinFlip.flip], [DiceRoll.roll]).

    Conventions.
    - JavaScript numbers that hold integers ([wins], [balance], the
      counters of the timers) are [Z]; the reals produced by
      [Math.random()] are rationals of [Q], so that [0.4] is [2/5] and
      [Math.floor] is [Qfloor].  Rounding of IEEE doubles is outside
      the model.
    - [Math.random()] reads the next value of a stream [nat -> Q]
      carried by the world, together with a cursor.
    - [setInterval] and [setTimeout] advance a virtual clock by their
      nominal delay each time the callback fires.
    - Sounds and confetti are recorded in a log of cues; nothing reads
      that log back. *)

From Stdlib Require Import ZArith QArith Qround Qabs List Bool String Lia Lqa.
From Stdlib Require Import DecimalString.
Import ListNotations.

Local Open Scope Z_scope.

(** ** Types *)

(** [type GameType = 'slots' | 'coin' | 'dice'] *)
Inductive GameType : Type := slots | coin | dice.

(** The literal type ['win' | 'loss'] of a history entry. *)
Inductive Result : Type := win | loss.

(** One element of [GameState.history]. *)
Record HistoryEntry : Type := mkEntry {
  game : GameType;
  result : Result
}.

(** [interface GameState]; [lastResult : string | null] is an option. *)
Record GameState : Type := mkState {
  wins : Z;
  balance : Z;
  showVault : bool;
  currentGame : GameType;
  isSpinning : bool;
  lastResult : option string;
  history : list HistoryEntry
}.

(** The argument of [useState<GameState>] in [App]. *)
Definition initialState : GameState :=
  {| wins := 0;
     balance := 0;
     showVault := false;
     currentGame := slots;
     isSpinning := false;
     lastResult := None;
     history := [] |}.

(** Keys of [SOUNDS], plus the confetti burst. *)
Inductive Cue : Type := snd_win | snd_spin | snd_vault | snd_click | burst.

(** ** The world and its monad *)

Record World : Type := mkWorld {
  rand : nat -> Q;       (* successive results of Math.random() *)
  cursor : nat;          (* how many of them were consumed *)
  clock : Z;             (* milliseconds of timer delay elapsed *)
  fired : nat;           (* timer callbacks run so far *)
  cues : list Cue;       (* sounds and bursts, newest first *)
  session : GameState    (* the state of [App] *)
}.

Definition M (A : Type) : Type := World -> A * World.

Definition ret {A} (a : A) : M A := fun w => (a, w).

Definition bind {A B} (m : M A) (k : A -> M B) : M B :=
  fun w => let (a, w') := m w in k a w'.

Declare Scope act_scope.
Delimit Scope act_scope with act.
Notation "x <- m ;; k" := (bind m (fun x => k))
  (at level 61, m at next level, right associativity) : act_scope.
Notation "m ;; k" := (bind m (fun _ => k))
  (at level 61, right associativity) : act_scope.
Local Open Scope act_scope.

Definition Math_random : M Q := fun w =>
  (rand w (cursor w),
   mkWorld (rand w) (S (cursor w)) (clock w) (fired w) (cues w) (session w)).

Definition playSound (k : Cue) : M unit := fun w =>
  (tt, mkWorld (rand w) (cursor w) (clock w) (fired w) (k :: cues w) (session w)).

Definition confetti : M unit := playSound burst.

(** [state], as the closure of the current render sees it. *)
Definition getState : M GameState := fun w => (session w, w).

(** [setState(prev => f prev)] *)
Definition setState (f : GameState -> GameState) : M unit := fun w =>
  (tt, mkWorld (rand w) (cursor w) (clock w) (fired w) (cues w) (f (session w))).

(** A timer callback fires after [delay] milliseconds. *)
Definition timerFires (delay : Z) : M unit := fun w =>
  (tt, mkWorld (rand w) (cursor w) (clock w + delay) (S (fired w)) (cues w) (session w)).

Definition when (b : bool) (m : M unit) : M unit := if b then m else ret tt.

(** ** Numbers *)

(** [Math.floor(Math.random() * n)] for the drawn value [r]. *)
Definition randomIndex (r : Q) (n : Z) : Z := Qfloor (r * inject_Z n).

(** [a > b] on numbers. *)
Definition Qgtb (a b : Q) : bool := negb (Qle_bool a b).

(** Number-to-string conversion of an integer inside a template literal. *)
Definition toString (z : Z) : string := NilZero.string_of_int (Z.to_int z).

(** [arr.slice(0, n)] for [0 <= n]. *)
Definition slice0 {A} (n : nat) (l : list A) : list A := firstn n l.

(** ** Session controller *)

(** [Math.floor(Math.random() * 101) + 400] *)
Definition winAmountOf (r : Q) : Z := randomIndex r 101 + 400.

(** The updater that [handleWin] passes to [setState]. *)
Definition winUpdate (winAmount : Z) (prev : GameState) : GameState :=
  let newWins := wins prev + 1 in
  let shouldOpenVault := 3 <=? newWins in
  {| wins := newWins;
     balance := balance prev + winAmount;
     showVault := shouldOpenVault;
     currentGame := currentGame prev;
     isSpinning := isSpinning prev;
     lastResult := Some ("+$" ++ toString winAmount ++ "!")%string;
     history := slice0 5 (mkEntry (currentGame prev) win :: history prev) |}.

Definition handleWin : M unit :=
  playSound snd_win ;;
  confetti ;;
  r <- Math_random ;;
  let winAmount := winAmountOf r in
  prev <- getState ;;
  when (3 <=? wins prev + 1) (playSound snd_vault) ;;
  setState (winUpdate winAmount).

(** The updater of [setGame]. *)
Definition gameUpdate (g : GameType) (prev : GameState) : GameState :=
  {| wins := wins prev;
     balance := balance prev;
     showVault := showVault prev;
     currentGame := g;
     isSpinning := isSpinning prev;
     lastResult := None;
     history := history prev |}.

Definition setGame (g : GameType) : M unit :=
  state <- getState ;;
  if isSpinning state then ret tt
  else playSound snd_click ;; setState (gameUpdate g).

(** The updater of [setIsSpinning]. *)
Definition spinningUpdate (spinning : bool) (prev : GameState) : GameState :=
  {| wins := wins prev;
     balance := balance prev;
     showVault := showVault prev;
     currentGame := currentGame prev;
     isSpinning := spinning;
     lastResult := lastResult prev;
     history := history prev |}.

Definition setIsSpinning (spinning : bool) : M unit :=
  setState (spinningUpdate spinning).

(** ** Game modules

    The three components receive [onWin], [isSpinning] and
    [setIsSpinning] as props; [App] passes [handleWin],
    [state.isSpinning] and its own [setIsSpinning], and the definitions
    below are wired the same way. *)

(** How a round ended: the guard refused it, the interval is still
    running when the fuel ran out, or it resolved. *)
Inductive Round : Type := notStarted | pending | lost | won.

(** [arr[i]]: [undefined] outside the array is [None]. *)
Definition elementAt {A} (l : list A) (i : Z) : option A :=
  if i <? 0 then None else nth_error l (Z.to_nat i).

(** [a === b] on values that are a string or [undefined]. *)
Definition strictEq (a b : option string) : bool :=
  match a, b with
  | Some x, Some y => String.eqb x y
  | None, None => true
  | _, _ => false
  end.

(** [setInterval(callback, delay)]: the callback fires every [delay]
    milliseconds until it calls [clearInterval], which it reports by
    returning [Some onWinCalled]. *)
Fixpoint setInterval {L} (fuel : nat) (callback : L -> M (L * option bool))
    (delay : Z) (l : L) : M (L * Round) :=
  match fuel with
  | O => ret (l, pending)
  | S fuel' =>
      timerFires delay ;;
      p <- callback l ;;
      match snd p with
      | Some b => ret (fst p, if b then won else lost)
      | None => setInterval fuel' callback delay (fst p)
      end
  end.

Module SlotMachine.

Definition symbols : list string :=
  ["🍒"; "🍋"; "🔔"; "💎"; "7️⃣"; "🍀"]%string.

(** The component's [reels] and the [iterations] counter of one spin. *)
Record Local : Type := mkLocal {
  reels : list (option string);
  iterations : Z
}.

Definition initialReels : list (option string) :=
  [Some "💎"; Some "💎"; Some "💎"]%string.

(** [symbols[Math.floor(Math.random() * symbols.length)]] *)
Definition pickSymbol : M (option string) :=
  r <- Math_random ;;
  ret (elementAt symbols (randomIndex r (Z.of_nat (List.length symbols)))).

(** The body of [if (iterations > 20) { ... }]. *)
Definition resolve (iterations' : Z) : M (Local * option bool) :=
  setIsSpinning false ;;
  f0 <- pickSymbol ;;
  f1 <- pickSymbol ;;
  f2 <- pickSymbol ;;
  let finalReels := [f0; f1; f2] in
  r <- Math_random ;;
  if Qgtb r (2 # 5) then
    winSym <- pickSymbol ;;
    handleWin ;;
    ret (mkLocal [winSym; winSym; winSym] iterations', Some true)
  else
    if strictEq f0 f1 && strictEq f1 f2 then
      handleWin ;;
      ret (mkLocal finalReels iterations', Some true)
    else
      ret (mkLocal finalReels iterations', Some false).

(** The interval callback of [spin]. *)
Definition tick (l : Local) : M (Local * option bool) :=
  a <- pickSymbol ;;
  b <- pickSymbol ;;
  c <- pickSymbol ;;
  let iterations' := iterations l + 1 in
  if 20 <? iterations' then resolve iterations'
  else ret (mkLocal [a; b; c] iterations', None).

Definition spin (fuel : nat) (reels0 : list (option string))
    : M (Local * Round) :=
  state <- getState ;;
  if isSpinning state then ret (mkLocal reels0 0, notStarted)
  else
    playSound snd_spin ;;
    setIsSpinning true ;;
    setInterval fuel tick 100 (mkLocal reels0 0).

End SlotMachine.

Module CoinFlip.

Inductive Side : Type := heads | tails.

Definition Side_eqb (a b : Side) : bool :=
  match a, b with
  | heads, heads | tails, tails => true
  | _, _ => false
  end.

Definition flip (userChoice : Side) (side : Side) : M (Side * Round) :=
  state <- getState ;;
  if isSpinning state then ret (side, notStarted)
  else
    playSound snd_spin ;;
    setIsSpinning true ;;
    timerFires 1000 ;;
    r <- Math_random ;;
    let result := if Qgtb r (1 # 2) then heads else tails in
    setIsSpinning false ;;
    if Side_eqb result userChoice then
      handleWin ;;
      ret (result, won)
    else ret (result, lost).

End CoinFlip.

Module DiceRoll.

(** The component's [dice] and the [count] counter of one roll. *)
Record Local : Type := mkLocal {
  dice : Z;
  count : Z
}.

(** [Math.floor(Math.random() * 6) + 1] *)
Definition face (r : Q) : Z := randomIndex r 6 + 1.

(** The body of [if (count > 15) { ... }]. *)
Definition resolve (count' : Z) : M (Local * option bool) :=
  r <- Math_random ;;
  let final := face r in
  setIsSpinning false ;;
  if 3 <? final then
    handleWin ;;
    ret (mkLocal final count', Some true)
  else ret (mkLocal final count', Some false).

(** The interval callback of [roll]. *)
Definition tick (l : Local) : M (Local * option bool) :=
  r <- Math_random ;;
  let count' := count l + 1 in
  if 15 <? count' then resolve count'
  else ret (mkLocal (face r) count', None).

Definition roll (fuel : nat) (dice0 : Z) : M (Local * Round) :=
  state <- getState ;;
  if isSpinning state then ret (mkLocal dice0 0, notStarted)
  else
    playSound snd_spin ;;
    setIsSpinning true ;;
    setInterval fuel tick 80 (mkLocal dice0 0).

End DiceRoll.

(** ** Rounds

    One user action on the mounted game component.  The local display
    state a component starts the round with travels with the action. *)

Inductive Play : Type :=
  | spinReels (reels0 : list (option string))
  | flipCoin (userChoice : CoinFlip.Side) (side0 : CoinFlip.Side)
  | rollDice (dice0 : Z).

Definition playRound (fuel : nat) (p : Play) : M Round :=
  match p with
  | spinReels reels0 =>
      out <- SlotMachine.spin fuel reels0 ;; ret (snd out)
  | flipCoin userChoice side0 =>
      out <- CoinFlip.flip userChoice side0 ;; ret (snd out)
  | rollDice dice0 =>
      out <- DiceRoll.roll fuel dice0 ;; ret (snd out)
  end.

(** The world after [n] firings of an interval of [delay] milliseconds
    whose callback draws [draws] numbers each time and touches nothing
    else. *)
Definition afterTicks (draws : nat) (delay : Z) (n : nat) (w : World) : World :=
  mkWorld (rand w) (draws * n + cursor w) (clock w + delay * Z.of_nat n)
          (n + fired w) (cues w) (session w).

(** The world after [k] more draws. *)
Definition consume (k : nat) (w : World) : World :=
  mkWorld (rand w) (k + cursor w) (clock w) (fired w) (cues w) (session w).

(** The world right after [spin], [flip] or [roll] took the lock. *)
Definition roundStarted (w : World) : World :=
  mkWorld (rand w) (cursor w) (clock w) (fired w) (snd_spin :: cues w)
          (spinningUpdate true (session w)).

(** The world in which the final reels and the number compared with
    [0.4] have been drawn and the lock released. *)
Definition slotDrawn (w : World) : World :=
  mkWorld (rand w) (4 + cursor w) (clock w) (fired w) (cues w)
          (spinningUpdate false (session w)).

(** The world in which the coin has landed and the lock is released. *)
Definition coinLanded (w : World) : World :=
  mkWorld (rand w) (1 + cursor w) (clock w + 1000) (S (fired w))
          (snd_spin :: cues w)
          (spinningUpdate false (spinningUpdate true (session w))).

(** The world in which the final face has been drawn and the lock
    released. *)
Definition diceDrawn (w : World) : World :=
  mkWorld (rand w) (1 + cursor w) (clock w) (fired w) (cues w)
          (spinningUpdate false (session w)).

(** What [setInterval] makes of the last callback's answer. *)
Definition settle {L} (x : (L * option bool) * World) : (L * Round) * World :=
  match x with
  | ((l, Some true), w) => ((l, won), w)
  | ((l, Some false), w) => ((l, lost), w)
  | ((l, None), w) => ((l, pending), w)
  end.

(** The symbol a draw selects. *)
Definition symbolOf (r : Q) : option string :=
  elementAt SlotMachine.symbols (randomIndex r 6).

(** ** Sessions as sequences of controller calls *)

(** The entry points of the session controller: [handleWin] (the
    [onWin] prop of every game), [setGame] and [setIsSpinning]. *)
Inductive Op : Type :=
  | onWin
  | selectGame (g : GameType)
  | setSpinning (flag : bool).

Definition perform (op : Op) : M unit :=
  match op with
  | onWin => handleWin
  | selectGame g => setGame g
  | setSpinning flag => setIsSpinning flag
  end.

Definition step (w : World) (op : Op) : World := snd (perform op w).

Definition run (ops : list Op) (w : World) : World := fold_left step ops w.

(** The page right after it loaded, with [rnd] as the future of
    [Math.random()]. *)
Definition initialWorld (rnd : nat -> Q) : World :=
  mkWorld rnd 0 0 0 [] initialState.

(** [Math.random()] returns a number in the half-open unit interval. *)
Definition unitStream (rnd : nat -> Q) : Prop :=
  forall n, (0 <= rnd n /\ rnd n < 1)%Q.

(** The [k]-th value [Math.random()] will return from [w] on. *)
Definition draw (w : World) (k : nat) : Q := rand w (k + cursor w).

(** Number of [onWin] calls in a sequence. *)
Fixpoint countWins (ops : list Op) : nat :=
  match ops with
  | [] => O
  | onWin :: ops' => S (countWins ops')
  | _ :: ops' => countWins ops'
  end.

(** The games of all winning rounds of a run, the most recent first,
    starting from the log [acc] of the rounds before it. *)
Fixpoint winLog (ops : list Op) (w : World) (acc : list GameType)
    : list GameType :=
  match ops with
  | [] => acc
  | op :: ops' =>
      winLog ops' (step w op)
        match op with
        | onWin => currentGame (session w) :: acc
        | _ => acc
        end
  end.

(** Sum of the first [n] win amounts drawn from [rnd]. *)
Fixpoint sumAmounts (rnd : nat -> Q) (n : nat) : Z :=
  match n with
  | O => 0
  | S n' => sumAmounts rnd n' + winAmountOf (rnd n')
  end.

(** ** Probabilities of step functions of the draws

    Every use the code makes of a draw is a floor of a multiple or a
    comparison with a constant, hence constant on the cells of a
    finite partition of the unit interval.  The probability of an
    event is the sum, over the cells on which it holds, of the product
    of the lengths of the cells. *)

Record Cell : Type := mkCell { lo : Q; hi : Q }.

Definition len (c : Cell) : Q := hi c - lo c.

Definition mid (c : Cell) : Q := (lo c + hi c) / 2.

(** The cells [k/n, (k+1)/n) for [k < n]. *)
Definition equalCells (n : nat) : list Cell :=
  map (fun k => mkCell (inject_Z (Z.of_nat k) / inject_Z (Z.of_nat n))
                       (inject_Z (Z.of_nat k + 1) / inject_Z (Z.of_nat n)))
      (seq 0 n).

(** The cells [0, c] and (c, 1). *)
Definition cutAt (c : Q) : list Cell := [mkCell 0 c; mkCell c 1].

(** Integral over the unit interval of a function that is constant on
    each of the cells. *)
Definition expect (cells : list Cell) (f : Q -> Q) : Q :=
  fold_right (fun c acc => len c * f (mid c) + acc)%Q 0%Q cells.

Definition indicator (b : bool) : Q := if b then 1%Q else 0%Q.

Definition isWon (r : Round) : bool :=
  match r with won => true | _ => false end.

Module SlotOdds.

(** Whether a spin on the fresh page wins: 63 draws go to the 21
    ticks, then three to [finalReels] and one to the comparison
    with [0.4]. *)
Definition spinWins (rnd : nat -> Q) : bool :=
  isWon (snd (fst (SlotMachine.spin 21 SlotMachine.initialReels
                     (initialWorld rnd)))).

Definition stream (f0 f1 f2 r : Q) : nat -> Q := fun n =>
  if Nat.eqb n 63 then f0
  else if Nat.eqb n 64 then f1
  else if Nat.eqb n 65 then f2
  else if Nat.eqb n 66 then r
  else 0%Q.

Definition winProbability : Q :=
  expect (equalCells 6) (fun f0 =>
  expect (equalCells 6) (fun f1 =>
  expect (equalCells 6) (fun f2 =>
  expect (cutAt (2 # 5)) (fun r =>
    indicator (spinWins (stream f0 f1 f2 r)))))).



End SlotOdds.

Module DiceOdds.

(** Whether a roll on the fresh page wins: 16 draws go to the ticks,
    the next one is the final face. *)
Definition rollWins (rnd : nat -> Q) : bool :=
  isWon (snd (fst (DiceRoll.roll 16 1 (initialWorld rnd)))).

Definition stream (r : Q) : nat -> Q := fun n =>
  if Nat.eqb n 16 then r else 0%Q.

Definition winProbability : Q :=
  expect (equalCells 6) (fun r => indicator (rollWins (stream r))).

End DiceOdds.


(** ** What a run from the fresh page preserves *)

Definition winEntry (g : GameType) : HistoryEntry := mkEntry g win.

(** What holds of every world a run can reach. *)
Record Reached (rnd : nat -> Q) (ops : list Op) (w : World) : Prop := {
  reached_rand : rand w = rnd;
  reached_cursor : cursor w = countWins ops;
  reached_wins : wins (session w) = Z.of_nat (countWins ops);
  reached_balance : balance (session w) = sumAmounts rnd (countWins ops);
  reached_vault : showVault (session w) = (3 <=? wins (session w));
  reached_length :
    Z.of_nat (List.length (history (session w))) = Z.min (wins (session w)) 5;
  reached_results : Forall (fun e => result e = win) (history (session w))
}.

(** ** The summary of a round

    What a round that starts does to the world, read off [spin],
    [flip] and [roll]: how often its timer fires and at which delay,
    how many numbers it draws before a possible [onWin], and whether
    it wins. *)


Definition roundTicks (p : Play) : nat :=
  match p with spinReels _ => 21 | flipCoin _ _ => 1 | rollDice _ => 16 end%nat.

Definition roundDelay (p : Play) : Z :=
  match p with spinReels _ => 100 | flipCoin _ _ => 1000 | rollDice _ => 80 end.

(** The side the coin lands on for the draw [r]. *)
Definition coinSide (r : Q) : CoinFlip.Side :=
  if Qgtb r (1 # 2) then CoinFlip.heads else CoinFlip.tails.

(** Whether the spin takes the branch of [Math.random() > 0.4]. *)
Definition roundForced (p : Play) (w : World) : bool :=
  match p with
  | spinReels _ => Qgtb (draw w 66) (2 # 5)
  | _ => false
  end.

Definition roundWins (p : Play) (w : World) : bool :=
  match p with
  | spinReels _ =>
      Qgtb (draw w 66) (2 # 5)
      || (strictEq (symbolOf (draw w 63)) (symbolOf (draw w 64))
          && strictEq (symbolOf (draw w 64)) (symbolOf (draw w 65)))
  | flipCoin userChoice _ => CoinFlip.Side_eqb (coinSide (draw w 0)) userChoice
  | rollDice _ => 3 <? DiceRoll.face (draw w 16)
  end.

Definition roundDraws (p : Play) (w : World) : nat :=
  match p with
  | spinReels _ => if roundForced p w then 68 else 67
  | flipCoin _ _ => 1
  | rollDice _ => 17
  end%nat.

(** The world when the round has released the lock, before [onWin]. *)
Definition landed (p : Play) (w : World) : World :=
  mkWorld (rand w) (roundDraws p w + cursor w)
          (clock w + roundDelay p * Z.of_nat (roundTicks p))
          (roundTicks p + fired w) (snd_spin :: cues w)
          (spinningUpdate false (session w)).

(** ** Clicks

    What the user can do on the page: press one of the three game
    tabs, or the button of the game component that is mounted, which
    is the one of [state.currentGame]. *)







(** ** What the page shows *)

(** Truthiness of a [string | null]. *)
Definition truthy (o : option string) : bool :=
  match o with
  | Some str => negb (String.eqb str "")
  | None => false
  end.




(** [state.lastResult && !state.isSpinning && (...)]: the label of the
    result overlay, when it is on the page. *)
Definition resultOverlay (s : GameState) : option string :=
  if truthy (lastResult s) && negb (isSpinning s) then lastResult s else None.


Module CoinOdds.

(** Whether a flip on the fresh page wins for the call [userChoice]. *)
Definition flipWins (userChoice : CoinFlip.Side) (rnd : nat -> Q) : bool :=
  isWon (snd (fst (CoinFlip.flip userChoice CoinFlip.heads (initialWorld rnd)))).

Definition winProbability (userChoice : CoinFlip.Side) : Q :=
  expect (cutAt (1 # 2)) (fun r => indicator (flipWins userChoice (fun _ => r))).

End CoinOdds.

(** * Properties *)

(** ** Floors and comparisons of a draw *)

Lemma Qfloor_unique (x : Q) (k : Z) :
  Qfloor x = k <-> (inject_Z k <= x /\ x < inject_Z (k + 1))%Q.
Proof.
  split.
  - intros <-. split; [apply Qfloor_le | apply Qlt_floor].
  - intros [Hlo Hhi].
    pose proof (Qfloor_le x) as Hfl.
    pose proof (Qlt_floor x) as Hlt.
    assert (H1 : (inject_Z k < inject_Z (Qfloor x + 1))%Q)
      by (eapply Qle_lt_trans; eassumption).
    assert (H2 : (inject_Z (Qfloor x) < inject_Z (k + 1))%Q)
      by (eapply Qle_lt_trans; eassumption).
    rewrite <- Zlt_Qlt in H1, H2. lia.
Qed.

(** The draws sent to index [k] of an array of [n] elements are those
    of the interval from [k/n] to [(k+1)/n], of length [1/n]. *)
Lemma randomIndex_cell (r : Q) (n k : Z) :
  0 < n ->
  randomIndex r n = k <->
  (inject_Z k / inject_Z n <= r /\ r < inject_Z (k + 1) / inject_Z n)%Q.
Proof.
  intros Hn. unfold randomIndex. rewrite Qfloor_unique.
  assert (Hq : (0 < inject_Z n)%Q) by (rewrite (Zlt_Qlt 0 n) in Hn; exact Hn).
  split; intros [H1 H2]; split.
  - apply Qle_shift_div_r; assumption.
  - apply Qlt_shift_div_l; assumption.
  - setoid_replace (inject_Z k) with (inject_Z k / inject_Z n * inject_Z n)%Q
      by (field; intro E; rewrite E in Hq; discriminate).
    apply Qmult_le_compat_r; [assumption | apply Qlt_le_weak; assumption].
  - setoid_replace (inject_Z (k + 1))
      with (inject_Z (k + 1) / inject_Z n * inject_Z n)%Q
      by (field; intro E; rewrite E in Hq; discriminate).
    apply Qmult_lt_compat_r; assumption.
Qed.

Lemma randomIndex_range (r : Q) (n : Z) :
  0 < n -> (0 <= r /\ r < 1)%Q -> 0 <= randomIndex r n < n.
Proof.
  intros Hn [H0 H1].
  assert (Hq : (0 < inject_Z n)%Q) by (rewrite (Zlt_Qlt 0 n) in Hn; exact Hn).
  pose proof (proj1 (Qfloor_unique (r * inject_Z n) (randomIndex r n)) eq_refl)
    as [Hlo Hhi].
  assert (Hup : (r * inject_Z n < inject_Z n)%Q).
  { setoid_replace (inject_Z n) with (1 * inject_Z n)%Q at 2 by ring.
    apply Qmult_lt_compat_r; assumption. }
  assert (Hdn : (0 <= r * inject_Z n)%Q)
    by (apply Qmult_le_0_compat; [assumption | apply Qlt_le_weak; assumption]).
  assert (A : (inject_Z (randomIndex r n) < inject_Z n)%Q)
    by (eapply Qle_lt_trans; eassumption).
  assert (B : (inject_Z 0 < inject_Z (randomIndex r n + 1))%Q)
    by (eapply Qle_lt_trans; [exact Hdn | exact Hhi]).
  rewrite <- Zlt_Qlt in A, B. lia.
Qed.


Lemma winAmountOf_range (r : Q) :
  (0 <= r /\ r < 1)%Q -> 400 <= winAmountOf r <= 500.
Proof.
  intros Hr. unfold winAmountOf.
  pose proof (randomIndex_range r 101 ltac:(lia) Hr). lia.
Qed.

Lemma winAmountOf_cell (r : Q) (v : Z) :
  winAmountOf r = v <->
  (inject_Z (v - 400) / 101 <= r /\ r < inject_Z (v - 399) / 101)%Q.
Proof.
  unfold winAmountOf.
  replace (v - 399) with (v - 400 + 1) by lia.
  rewrite <- (randomIndex_cell r 101 (v - 400)) by lia. lia.
Qed.

(** ** The controller's entry points, one call at a time *)

Lemma handleWin_run (w : World) :
  handleWin w =
  (tt, mkWorld (rand w) (S (cursor w)) (clock w) (fired w)
         ((if 3 <=? wins (session w) + 1 then [snd_vault] else [])
            ++ burst :: snd_win :: cues w)
         (winUpdate (winAmountOf (draw w 0)) (session w))).
Proof.
  unfold handleWin, bind, confetti, playSound, Math_random, getState,
    setState, when, draw; cbn.
  destruct (3 <=? wins (session w) + 1); reflexivity.
Qed.

Lemma handleWin_then {A} (x : A) (w : World) :
  (handleWin ;; ret x) w = (x, snd (handleWin w)).
Proof. unfold bind, ret. rewrite handleWin_run. reflexivity. Qed.

Lemma setGame_run (g : GameType) (w : World) :
  setGame g w =
  (tt, if isSpinning (session w) then w
       else mkWorld (rand w) (cursor w) (clock w) (fired w)
              (snd_click :: cues w) (gameUpdate g (session w))).
Proof.
  unfold setGame, bind, getState, playSound, setState, ret; cbn.
  destruct (isSpinning (session w)); reflexivity.
Qed.

Lemma setIsSpinning_run (flag : bool) (w : World) :
  setIsSpinning flag w =
  (tt, mkWorld (rand w) (cursor w) (clock w) (fired w) (cues w)
         (spinningUpdate flag (session w))).
Proof. reflexivity. Qed.

Lemma slice0_length {A} (n : nat) (l : list A) :
  List.length (slice0 n l) = Nat.min n (List.length l).
Proof. apply length_firstn. Qed.

(** C1: for every session state, the win transition draws one number,
    turns it into an integer [winAmount] of 400..500, each value
    coming from an interval of draws of the same length 1/101, and
    yields a state with [wins] incremented, [balance] increased by
    [winAmount], [showVault] true when the new [wins] is at least 3,
    an entry for the current game and outcome win put in front of
    [history], cut to 5 entries, and [lastResult] the text
    "+$<winAmount>!". *)
Theorem handleWin_transition (w : World) :
  (0 <= draw w 0 /\ draw w 0 < 1)%Q ->
  let winAmount := winAmountOf (draw w 0) in
  let s := session w in
  let w' := snd (handleWin w) in
  let s' := session w' in
  cursor w' = S (cursor w)
  /\ 400 <= winAmount <= 500
  /\ (forall v, 400 <= v <= 500 ->
        winAmount = v <->
        (inject_Z (v - 400) / 101 <= draw w 0
         /\ draw w 0 < inject_Z (v - 400) / 101 + 1 / 101)%Q)
  /\ wins s' = wins s + 1
  /\ balance s' = balance s + winAmount
  /\ (showVault s' = true <-> 3 <= wins s')
  /\ history s' = firstn 5 (mkEntry (currentGame s) win :: history s)
  /\ (List.length (history s') <= 5)%nat
  /\ lastResult s' = Some ("+$" ++ toString winAmount ++ "!")%string.
Proof.
  intros Hr winAmount s w' s'.
  subst w' s'. rewrite handleWin_run. cbn [snd session cursor].
  fold winAmount s.
  pose proof (winAmountOf_range _ Hr) as Hrange. fold winAmount in Hrange.
  assert (Hcell : forall v,
    (inject_Z (v - 399) / 101 == inject_Z (v - 400) / 101 + 1 / 101)%Q).
  { intros v. replace (v - 399) with (v - 400 + 1) by lia.
    rewrite inject_Z_plus. field. }
  split; [reflexivity|].
  split; [exact Hrange|].
  split.
  { intros v _. unfold winAmount. rewrite winAmountOf_cell, Hcell. tauto. }
  split; [reflexivity|].
  split; [reflexivity|].
  split; [cbn; apply Z.leb_le|].
  split; [reflexivity|].
  split; [|reflexivity].
  cbn [winUpdate history]. rewrite slice0_length. apply Nat.le_min_l.
Qed.

Lemma handleWin_transition_witness :
  let w := initialWorld (fun _ => 1 # 2) in
  (0 <= draw w 0 /\ draw w 0 < 1)%Q
  /\ balance (session (snd (handleWin w))) = 450
  /\ lastResult (session (snd (handleWin w))) = Some "+$450!"%string.
Proof.
  intros w.
  assert (Hr : (0 <= draw w 0 /\ draw w 0 < 1)%Q)
    by (split; vm_compute; [discriminate | reflexivity]).
  split; [exact Hr|].
  pose proof (handleWin_transition w Hr) as H.
  cbv zeta in H.
  destruct H as (_ & _ & _ & _ & Hb & _ & _ & _ & Hl).
  split; [exact Hb | exact Hl].
Defined.

(** C4: while [isSpinning] is true, [setGame g] changes nothing (so
    [currentGame] and [lastResult] keep their values); while it is
    false, [setGame g] sets [currentGame] to [g], clears [lastResult]
    and leaves the five other fields as they were. *)
Theorem setGame_guarded (w : World) (g : GameType) :
  let s := session w in
  let w' := snd (setGame g w) in
  let s' := session w' in
  (isSpinning s = true -> w' = w /\ s' = s)
  /\ (isSpinning s = false ->
        currentGame s' = g
        /\ lastResult s' = None
        /\ wins s' = wins s
        /\ balance s' = balance s
        /\ showVault s' = showVault s
        /\ isSpinning s' = isSpinning s
        /\ history s' = history s).
Proof.
  intros s w' s'. subst w' s'. rewrite setGame_run. cbn [snd]. fold s.
  split; intros E; rewrite E.
  - split; reflexivity.
  - cbn. subst s. rewrite ?E. repeat split.
Qed.

Lemma setGame_guarded_witness :
  let busy := snd (setIsSpinning true (initialWorld (fun _ => 0%Q))) in
  let idle := initialWorld (fun _ => 0%Q) in
  currentGame (session (snd (setGame dice busy))) = slots
  /\ currentGame (session (snd (setGame dice idle))) = dice.
Proof.
  intros busy idle. split.
  - destruct (proj1 (setGame_guarded busy dice) eq_refl) as [_ E].
    cbv zeta in E. rewrite E. reflexivity.
  - exact (proj1 (proj2 (setGame_guarded idle dice) eq_refl)).
Defined.

(** C10: the win transition leaves [currentGame] and [isSpinning] as
    they were; of the seven session fields it can only change [wins],
    [balance], [showVault], [lastResult] and [history]. *)
Theorem handleWin_frame (w : World) :
  currentGame (session (snd (handleWin w))) = currentGame (session w)
  /\ isSpinning (session (snd (handleWin w))) = isSpinning (session w).
Proof. rewrite handleWin_run. split; reflexivity. Qed.

(** ** Runs of the controller from the fresh page *)

Lemma run_snoc (ops : list Op) (op : Op) (w : World) :
  run (ops ++ [op]) w = step (run ops w) op.
Proof. unfold run. rewrite fold_left_app. reflexivity. Qed.

Lemma countWins_snoc (ops : list Op) (op : Op) :
  countWins (ops ++ [op]) =
  (countWins ops + match op with onWin => 1 | _ => 0 end)%nat.
Proof.
  induction ops as [|o ops IH]; cbn.
  - destruct op; reflexivity.
  - destruct o; cbn; rewrite IH; reflexivity.
Qed.

Lemma step_session (w : World) (op : Op) :
  session (step w op) =
  match op with
  | onWin => winUpdate (winAmountOf (draw w 0)) (session w)
  | selectGame g =>
      if isSpinning (session w) then session w
      else gameUpdate g (session w)
  | setSpinning flag => spinningUpdate flag (session w)
  end.
Proof.
  unfold step. destruct op; cbn [perform].
  - rewrite handleWin_run. reflexivity.
  - rewrite setGame_run. cbn [snd].
    destruct (isSpinning (session w)); reflexivity.
  - reflexivity.
Qed.

Lemma step_stream (w : World) (op : Op) :
  rand (step w op) = rand w
  /\ cursor (step w op) =
     (match op with onWin => 1 | _ => 0 end + cursor w)%nat.
Proof.
  unfold step. destruct op; cbn [perform].
  - rewrite handleWin_run. split; reflexivity.
  - rewrite setGame_run. cbn [snd].
    destruct (isSpinning (session w)); split; reflexivity.
  - split; reflexivity.
Qed.

(** Only a win changes [history]. *)
Lemma step_history (w : World) (op : Op) :
  op <> onWin -> history (session (step w op)) = history (session w).
Proof.
  intros Hop. rewrite step_session. destruct op; [congruence| |reflexivity].
  destruct (isSpinning (session w)); reflexivity.
Qed.

Lemma Forall_firstn {A} (P : A -> Prop) (n : nat) (l : list A) :
  Forall P l -> Forall P (firstn n l).
Proof.
  intros H. revert n. induction H as [|x l Hx Hl IH]; intros [|n]; cbn;
    constructor; auto.
Qed.

Lemma run_reached (rnd : nat -> Q) (ops : list Op) :
  Reached rnd ops (run ops (initialWorld rnd)).
Proof.
  induction ops as [|op ops IH] using rev_ind.
  - constructor; try reflexivity. constructor.
  - rewrite run_snoc. set (w := run ops (initialWorld rnd)) in *.
    destruct IH as [Hr Hc Hw Hb Hv Hl Hf].
    destruct (step_stream w op) as [Sr Sc].
    pose proof (step_session w op) as Ss.
    pose proof (countWins_snoc ops op) as Cn.
    constructor; rewrite ?Sr, ?Sc, ?Ss, ?Cn; try assumption.
    + destruct op; rewrite Hc; lia.
    + destruct op; cbn [winUpdate wins gameUpdate spinningUpdate];
        [|destruct (isSpinning (session w)); cbn [gameUpdate wins]|];
        rewrite Hw; lia.
    + destruct op;
        [|destruct (isSpinning (session w))|];
        cbn [winUpdate balance gameUpdate spinningUpdate];
        rewrite ?Nat.add_0_r, ?Hb; try reflexivity.
      rewrite Nat.add_1_r. cbn [sumAmounts].
      unfold draw. rewrite Hr, Hc. reflexivity.
    + destruct op;
        [|destruct (isSpinning (session w))|];
        cbn [winUpdate showVault wins gameUpdate spinningUpdate];
        try assumption; reflexivity.
    + destruct op;
        [|destruct (isSpinning (session w))|];
        cbn [winUpdate history wins gameUpdate spinningUpdate];
        try assumption.
      rewrite slice0_length. cbn [List.length]. lia.
    + destruct op;
        [|destruct (isSpinning (session w))|];
        cbn [winUpdate history gameUpdate spinningUpdate];
        try assumption.
      unfold slice0. apply Forall_firstn. constructor; [reflexivity|assumption].
Qed.

Lemma firstn_cons_firstn {A} (n : nat) (x : A) (l : list A) :
  firstn (S n) (x :: firstn (S n) l) = firstn (S n) (x :: l).
Proof.
  rewrite !firstn_cons. f_equal. rewrite firstn_firstn.
  f_equal. lia.
Qed.

Lemma history_winLog (ops : list Op) :
  forall (w : World) (acc : list GameType),
    history (session w) = firstn 5 (map winEntry acc) ->
    history (session (run ops w)) = firstn 5 (map winEntry (winLog ops w acc)).
Proof.
  induction ops as [|op ops IH]; intros w acc Hacc.
  - exact Hacc.
  - cbn [run fold_left winLog]. apply IH.
    destruct op.
    + rewrite step_session. cbn [winUpdate history map]. unfold slice0.
      rewrite Hacc. apply firstn_cons_firstn.
    + rewrite step_history by discriminate. exact Hacc.
    + rewrite step_history by discriminate. exact Hacc.
Qed.

Lemma winLog_snoc_win (ops : list Op) :
  forall (w : World) (acc : list GameType),
    winLog (ops ++ [onWin]) w acc =
    currentGame (session (run ops w)) :: winLog ops w acc.
Proof.
  induction ops as [|op ops IH]; intros w acc; [reflexivity|].
  cbn [app winLog run fold_left]. apply IH.
Qed.

Lemma sumAmounts_bounds (rnd : nat -> Q) (n : nat) :
  unitStream rnd ->
  400 * Z.of_nat n <= sumAmounts rnd n <= 500 * Z.of_nat n.
Proof.
  intros Hu. induction n as [|n IH]; cbn [sumAmounts]; [lia|].
  pose proof (winAmountOf_range (rnd n) (Hu n)). lia.
Qed.

(** C2: in every state reached from the initial session by calls of
    [onWin], [selectGame] and [setSpinning], [showVault] is true
    exactly when [wins >= 3]; once true it stays true after any
    further call, and the call that turns it from false to true is the
    win that brings [wins] to 3. *)
Theorem showVault_iff_three_wins (rnd : nat -> Q) (ops : list Op) :
  let w := run ops (initialWorld rnd) in
  (showVault (session w) = true <-> 3 <= wins (session w))
  /\ (forall op, showVault (session w) = true ->
                 showVault (session (step w op)) = true)
  /\ (forall op, showVault (session w) = false ->
                 showVault (session (step w op)) = true ->
                 op = onWin /\ wins (session (step w op)) = 3).
Proof.
  intros w.
  pose proof (reached_vault _ _ _ (run_reached rnd ops)) as Hv. fold w in Hv.
  assert (Hnext : forall op,
    showVault (session (step w op)) = (3 <=? wins (session (step w op)))).
  { intros op. unfold w. rewrite <- run_snoc.
    exact (reached_vault _ _ _ (run_reached rnd (ops ++ [op]))). }
  split; [rewrite Hv; apply Z.leb_le|].
  split; intros op.
  - rewrite Hnext, Hv, !Z.leb_le, step_session.
    destruct op; [|destruct (isSpinning (session w))|]; cbn; lia.
  - rewrite Hnext, Hv, Z.leb_le, Z.leb_gt, step_session.
    destruct op; [|destruct (isSpinning (session w))|]; cbn;
      intros; try lia.
    split; [reflexivity | lia].
Qed.

(** C3: in every reached state [history] has at most 5 entries, each
    of them records a win, and they are the most recent winning rounds
    with the latest in front: [history] is the first 5 of the log of
    all wins, newest first, and a further win puts its entry at the
    head. *)
Theorem history_recent_wins (rnd : nat -> Q) (ops : list Op) :
  let w := run ops (initialWorld rnd) in
  (List.length (history (session w)) <= 5)%nat
  /\ Forall (fun e => result e = win) (history (session w))
  /\ history (session w) =
     firstn 5 (map winEntry (winLog ops (initialWorld rnd) []))
  /\ history (session (step w onWin)) =
     firstn 5 (mkEntry (currentGame (session w)) win :: history (session w))
  /\ winLog (ops ++ [onWin]) (initialWorld rnd) [] =
     currentGame (session w) :: winLog ops (initialWorld rnd) [].
Proof.
  intros w.
  destruct (run_reached rnd ops) as [_ _ _ _ _ Hl Hf]. fold w in Hl, Hf.
  split; [lia|].
  split; [exact Hf|].
  split; [apply history_winLog; reflexivity|].
  split; [rewrite step_session; reflexivity|].
  apply winLog_snoc_win.
Qed.

(** C6: after a run with N wins from the initial session, [balance] is
    the sum of the N win amounts drawn, each of 400..500, hence lies
    between 400*N and 500*N; and no call ever decreases [balance]. *)
Theorem balance_is_sum_of_draws (rnd : nat -> Q) (ops : list Op) :
  unitStream rnd ->
  let w := run ops (initialWorld rnd) in
  let N := countWins ops in
  wins (session w) = Z.of_nat N
  /\ balance (session w) = sumAmounts rnd N
  /\ (forall i, (i < N)%nat -> 400 <= winAmountOf (rnd i) <= 500)
  /\ 400 * Z.of_nat N <= balance (session w) <= 500 * Z.of_nat N
  /\ (forall op, balance (session w) <= balance (session (step w op))).
Proof.
  intros Hu w N.
  destruct (run_reached rnd ops) as [Hr Hc Hw Hb _ _ _]. fold w N in Hr, Hc, Hw, Hb.
  split; [exact Hw|].
  split; [exact Hb|].
  split; [intros i _; apply winAmountOf_range, Hu|].
  split; [rewrite Hb; apply sumAmounts_bounds, Hu|].
  intros op. rewrite step_session.
  destruct op; [|destruct (isSpinning (session w))|]; cbn; try lia.
  unfold draw. rewrite Hr.
  pose proof (winAmountOf_range (rnd (0 + cursor w)%nat) (Hu _)). lia.
Qed.

Lemma balance_is_sum_of_draws_witness :
  let rnd := fun _ : nat => 1 # 2 in
  unitStream rnd
  /\ balance (session (run [onWin; selectGame coin; onWin; onWin]
                         (initialWorld rnd))) = 1350.
Proof.
  intros rnd.
  assert (Hu : unitStream rnd)
    by (intros n; split; vm_compute; [discriminate | reflexivity]).
  split; [exact Hu|].
  destruct (balance_is_sum_of_draws rnd
              [onWin; selectGame coin; onWin; onWin] Hu) as (_ & Hb & _).
  rewrite Hb. reflexivity.
Defined.

(** C9: in every reached state the length of [history] is
    [min(wins, 5)], [wins] being the number of wins so far; a win
    puts exactly one entry in front, and a call that is not a win
    leaves [history] as it is. *)
Theorem history_length_min_wins (rnd : nat -> Q) (ops : list Op) :
  let w := run ops (initialWorld rnd) in
  Z.of_nat (List.length (history (session w))) = Z.min (wins (session w)) 5
  /\ wins (session w) = Z.of_nat (countWins ops)
  /\ history (session (step w onWin)) =
     firstn 5 (mkEntry (currentGame (session w)) win :: history (session w))
  /\ (forall g, history (session (step w (selectGame g))) = history (session w))
  /\ (forall b, history (session (step w (setSpinning b))) = history (session w)).
Proof.
  intros w.
  destruct (run_reached rnd ops) as [_ _ Hw _ _ Hl _]. fold w in Hw, Hl.
  split; [exact Hl|].
  split; [exact Hw|].
  split; [rewrite step_session; reflexivity|].
  split; intros; apply step_history; discriminate.
Qed.

(** The scenario of the specification: three wins of 420, 455 and 480. *)
Example three_wins_scenario :
  let rnd := fun n => match n with
                      | O => 41 # 202
                      | S O => 111 # 202
                      | _ => 161 # 202
                      end in
  let s := session (run [onWin; selectGame dice; onWin; onWin]
                      (initialWorld rnd)) in
  wins s = 3 /\ balance s = 1355 /\ showVault s = true
  /\ history s = [mkEntry dice win; mkEntry dice win; mkEntry slots win]
  /\ lastResult s = Some "+$480!"%string.
Proof. vm_compute. repeat split. Qed.

(** ** Intervals *)

Lemma setInterval_fire {L} (fuel : nat) (cb : L -> M (L * option bool))
    (delay : Z) (l : L) (w : World) :
  setInterval (S fuel) cb delay l w =
  match cb l (afterTicks 0 delay 1 w) with
  | ((l', Some b), w') => ((l', if b then won else lost), w')
  | ((l', None), w') => setInterval fuel cb delay l' w'
  end.
Proof.
  cbn [setInterval]. unfold bind at 1. unfold timerFires, afterTicks.
  cbn [Nat.mul Nat.add Z.of_nat].
  replace (clock w + delay * Z.pos (Pos.of_succ_nat 0)) with (clock w + delay)
    by (cbn; lia).
  unfold bind.
  destruct (cb l _) as [[l' [b|]] w']; reflexivity.
Qed.

Lemma afterTicks_more (draws : nat) (delay : Z) (n : nat) (w : World) :
  afterTicks draws delay n (consume draws (afterTicks 0 delay 1 w)) =
  afterTicks draws delay (S n) w.
Proof.
  unfold afterTicks, consume. cbn [rand cursor clock fired cues session].
  f_equal; lia.
Qed.

(** ** The slot machine *)

Lemma pickSymbol_run (w : World) :
  SlotMachine.pickSymbol w = (symbolOf (draw w 0), consume 1 w).
Proof. reflexivity. Qed.

Lemma slot_tick_run (l : SlotMachine.Local) (w : World) :
  SlotMachine.tick l w =
  if 20 <? SlotMachine.iterations l + 1
  then SlotMachine.resolve (SlotMachine.iterations l + 1) (consume 3 w)
  else ((SlotMachine.mkLocal
           [symbolOf (draw w 0); symbolOf (draw w 1); symbolOf (draw w 2)]
           (SlotMachine.iterations l + 1), None), consume 3 w).
Proof.
  unfold SlotMachine.tick, bind. rewrite !pickSymbol_run.
  destruct (20 <? SlotMachine.iterations l + 1); reflexivity.
Qed.

Lemma slot_resolve_run (it : Z) (w : World) :
  SlotMachine.resolve it w =
  let f0 := symbolOf (draw w 0) in
  let f1 := symbolOf (draw w 1) in
  let f2 := symbolOf (draw w 2) in
  if Qgtb (draw w 3) (2 # 5) then
    let winSym := symbolOf (draw w 4) in
    ((SlotMachine.mkLocal [winSym; winSym; winSym] it, Some true),
     snd (handleWin (consume 1 (slotDrawn w))))
  else if strictEq f0 f1 && strictEq f1 f2 then
    ((SlotMachine.mkLocal [f0; f1; f2] it, Some true),
     snd (handleWin (slotDrawn w)))
  else
    ((SlotMachine.mkLocal [f0; f1; f2] it, Some false), slotDrawn w).
Proof.
  unfold SlotMachine.resolve. unfold bind at 1. rewrite setIsSpinning_run.
  unfold bind at 1. rewrite pickSymbol_run.
  unfold bind at 1. rewrite pickSymbol_run.
  unfold bind at 1. rewrite pickSymbol_run.
  unfold bind at 1. unfold Math_random at 1.
  cbn [consume rand cursor clock fired cues session draw Nat.add].
  cbv zeta.
  change (rand w (S (S (S (cursor w))))) with (draw w 3).
  destruct (Qgtb (draw w 3) (2 # 5)).
  - unfold bind at 1. rewrite pickSymbol_run.
    rewrite handleWin_then. reflexivity.
  - destruct (strictEq _ _ && strictEq _ _).
    + rewrite handleWin_then. reflexivity.
    + reflexivity.
Qed.

Lemma afterTicks_first (draws : nat) (delay : Z) (w : World) :
  consume draws (afterTicks 0 delay 1 w) = afterTicks draws delay 1 w.
Proof.
  unfold afterTicks, consume. cbn [rand cursor clock fired cues session].
  f_equal; lia.
Qed.

Lemma slot_interval (n : nat) :
  forall (fuel : nat) (l : SlotMachine.Local) (w : World),
    SlotMachine.iterations l + Z.of_nat n = 20 ->
    (n < fuel)%nat ->
    setInterval fuel SlotMachine.tick 100 l w =
    settle (SlotMachine.resolve 21 (afterTicks 3 100 (S n) w)).
Proof.
  induction n as [|n IH]; intros fuel l w Hit Hfuel;
    (destruct fuel as [|fuel]; [lia|]);
    rewrite setInterval_fire, slot_tick_run.
  - replace (SlotMachine.iterations l + 1) with 21 by lia.
    cbn [Z.ltb Z.compare Pos.compare Pos.compare_cont].
    rewrite afterTicks_first.
    rewrite slot_resolve_run. cbv zeta.
    destruct (Qgtb _ _); [reflexivity|].
    destruct (strictEq _ _ && strictEq _ _); reflexivity.
  - destruct (20 <? SlotMachine.iterations l + 1) eqn:E;
      [apply Z.ltb_lt in E; lia|].
    rewrite IH by (cbn [SlotMachine.iterations]; lia).
    rewrite afterTicks_more. reflexivity.
Qed.

Lemma slot_interval_short (fuel : nat) :
  forall (l : SlotMachine.Local) (w : World),
    SlotMachine.iterations l + Z.of_nat fuel <= 20 ->
    snd (fst (setInterval fuel SlotMachine.tick 100 l w)) = pending.
Proof.
  induction fuel as [|fuel IH]; intros l w Hit; [reflexivity|].
  rewrite setInterval_fire, slot_tick_run.
  destruct (20 <? SlotMachine.iterations l + 1) eqn:E;
    [apply Z.ltb_lt in E; lia|].
  apply IH. cbn [SlotMachine.iterations]. lia.
Qed.

Lemma spin_guard (fuel : nat) (reels0 : list (option string)) (w : World) :
  isSpinning (session w) = true ->
  SlotMachine.spin fuel reels0 w = ((SlotMachine.mkLocal reels0 0, notStarted), w).
Proof.
  intros E. unfold SlotMachine.spin, bind, getState. rewrite E. reflexivity.
Qed.

Lemma spin_interval (fuel : nat) (reels0 : list (option string)) (w : World) :
  isSpinning (session w) = false ->
  SlotMachine.spin fuel reels0 w =
  setInterval fuel SlotMachine.tick 100 (SlotMachine.mkLocal reels0 0)
    (roundStarted w).
Proof.
  intros E. unfold SlotMachine.spin, bind at 1, getState. rewrite E.
  reflexivity.
Qed.

Lemma spin_run (fuel : nat) (reels0 : list (option string)) (w : World) :
  isSpinning (session w) = false ->
  (21 <= fuel)%nat ->
  SlotMachine.spin fuel reels0 w =
  settle (SlotMachine.resolve 21 (afterTicks 3 100 21 (roundStarted w))).
Proof.
  intros E Hfuel. rewrite spin_interval by exact E.
  apply (slot_interval 20); cbn [SlotMachine.iterations]; lia.
Qed.

Lemma spin_short (fuel : nat) (reels0 : list (option string)) (w : World) :
  isSpinning (session w) = false ->
  (fuel <= 20)%nat ->
  snd (fst (SlotMachine.spin fuel reels0 w)) = pending.
Proof.
  intros E Hfuel. rewrite spin_interval by exact E.
  apply slot_interval_short. cbn [SlotMachine.iterations]. lia.
Qed.

Lemma strictEq_symbols (i j : Z) :
  0 <= i < 6 -> 0 <= j < 6 ->
  strictEq (elementAt SlotMachine.symbols i) (elementAt SlotMachine.symbols j)
  = (i =? j).
Proof.
  intros Hi Hj.
  assert (Ei : i = 0 \/ i = 1 \/ i = 2 \/ i = 3 \/ i = 4 \/ i = 5) by lia.
  assert (Ej : j = 0 \/ j = 1 \/ j = 2 \/ j = 3 \/ j = 4 \/ j = 5) by lia.
  repeat (destruct Ei as [->|Ei]); try subst i;
    repeat (destruct Ej as [->|Ej]); try subst j; reflexivity.
Qed.

(** ** The coin *)

Lemma flip_guard (c side : CoinFlip.Side) (w : World) :
  isSpinning (session w) = true ->
  CoinFlip.flip c side w = ((side, notStarted), w).
Proof.
  intros E. unfold CoinFlip.flip, bind, getState. rewrite E. reflexivity.
Qed.

Lemma flip_run (c side : CoinFlip.Side) (w : World) :
  isSpinning (session w) = false ->
  CoinFlip.flip c side w =
  let result :=
    if Qgtb (draw w 0) (1 # 2) then CoinFlip.heads else CoinFlip.tails in
  if CoinFlip.Side_eqb result c
  then ((result, won), snd (handleWin (coinLanded w)))
  else ((result, lost), coinLanded w).
Proof.
  intros E. unfold CoinFlip.flip, bind at 1, getState. rewrite E.
  unfold bind at 1, playSound at 1.
  unfold bind at 1. rewrite setIsSpinning_run.
  unfold bind at 1, timerFires at 1.
  unfold bind at 1, Math_random at 1.
  unfold bind at 1. rewrite setIsSpinning_run.
  cbn [rand cursor clock fired cues session]. cbv zeta.
  change (rand w (cursor w)) with (draw w 0).
  destruct (CoinFlip.Side_eqb _ c).
  - rewrite handleWin_then. reflexivity.
  - reflexivity.
Qed.

(** ** The dice *)

Lemma dice_resolve_run (cnt : Z) (w : World) :
  DiceRoll.resolve cnt w =
  let final := DiceRoll.face (draw w 0) in
  if 3 <? final
  then ((DiceRoll.mkLocal final cnt, Some true), snd (handleWin (diceDrawn w)))
  else ((DiceRoll.mkLocal final cnt, Some false), diceDrawn w).
Proof.
  unfold DiceRoll.resolve. unfold bind at 1, Math_random at 1.
  unfold bind at 1. rewrite setIsSpinning_run.
  cbn [rand cursor clock fired cues session]. cbv zeta.
  change (rand w (cursor w)) with (draw w 0).
  destruct (3 <? DiceRoll.face (draw w 0)).
  - rewrite handleWin_then. reflexivity.
  - reflexivity.
Qed.

Lemma dice_tick_run (l : DiceRoll.Local) (w : World) :
  DiceRoll.tick l w =
  if 15 <? DiceRoll.count l + 1
  then DiceRoll.resolve (DiceRoll.count l + 1) (consume 1 w)
  else ((DiceRoll.mkLocal (DiceRoll.face (draw w 0)) (DiceRoll.count l + 1),
         None), consume 1 w).
Proof.
  unfold DiceRoll.tick, bind, Math_random.
  destruct (15 <? DiceRoll.count l + 1); reflexivity.
Qed.

Lemma dice_interval (n : nat) :
  forall (fuel : nat) (l : DiceRoll.Local) (w : World),
    DiceRoll.count l + Z.of_nat n = 15 ->
    (n < fuel)%nat ->
    setInterval fuel DiceRoll.tick 80 l w =
    settle (DiceRoll.resolve 16 (afterTicks 1 80 (S n) w)).
Proof.
  induction n as [|n IH]; intros fuel l w Hc Hfuel;
    (destruct fuel as [|fuel]; [lia|]);
    rewrite setInterval_fire, dice_tick_run.
  - replace (DiceRoll.count l + 1) with 16 by lia.
    cbn [Z.ltb Z.compare Pos.compare Pos.compare_cont].
    rewrite afterTicks_first.
    rewrite dice_resolve_run. cbv zeta.
    destruct (3 <? _); reflexivity.
  - destruct (15 <? DiceRoll.count l + 1) eqn:E;
      [apply Z.ltb_lt in E; lia|].
    rewrite IH by (cbn [DiceRoll.count]; lia).
    rewrite afterTicks_more. reflexivity.
Qed.

Lemma dice_interval_short (fuel : nat) :
  forall (l : DiceRoll.Local) (w : World),
    DiceRoll.count l + Z.of_nat fuel <= 15 ->
    snd (fst (setInterval fuel DiceRoll.tick 80 l w)) = pending.
Proof.
  induction fuel as [|fuel IH]; intros l w Hc; [reflexivity|].
  rewrite setInterval_fire, dice_tick_run.
  destruct (15 <? DiceRoll.count l + 1) eqn:E;
    [apply Z.ltb_lt in E; lia|].
  apply IH. cbn [DiceRoll.count]. lia.
Qed.

Lemma roll_guard (fuel : nat) (dice0 : Z) (w : World) :
  isSpinning (session w) = true ->
  DiceRoll.roll fuel dice0 w = ((DiceRoll.mkLocal dice0 0, notStarted), w).
Proof.
  intros E. unfold DiceRoll.roll, bind, getState. rewrite E. reflexivity.
Qed.

Lemma roll_interval (fuel : nat) (dice0 : Z) (w : World) :
  isSpinning (session w) = false ->
  DiceRoll.roll fuel dice0 w =
  setInterval fuel DiceRoll.tick 80 (DiceRoll.mkLocal dice0 0) (roundStarted w).
Proof.
  intros E. unfold DiceRoll.roll, bind at 1, getState. rewrite E. reflexivity.
Qed.

Lemma roll_run (fuel : nat) (dice0 : Z) (w : World) :
  isSpinning (session w) = false ->
  (16 <= fuel)%nat ->
  DiceRoll.roll fuel dice0 w =
  settle (DiceRoll.resolve 16 (afterTicks 1 80 16 (roundStarted w))).
Proof.
  intros E Hfuel. rewrite roll_interval by exact E.
  apply (dice_interval 15); cbn [DiceRoll.count]; lia.
Qed.

Lemma roll_short (fuel : nat) (dice0 : Z) (w : World) :
  isSpinning (session w) = false ->
  (fuel <= 15)%nat ->
  snd (fst (DiceRoll.roll fuel dice0 w)) = pending.
Proof.
  intros E Hfuel. rewrite roll_interval by exact E.
  apply dice_interval_short. cbn [DiceRoll.count]. lia.
Qed.

(** ** Rounds and the session *)

Lemma playRound_run (fuel : nat) (p : Play) (w : World) :
  playRound fuel p w =
  match p with
  | spinReels reels0 =>
      (snd (fst (SlotMachine.spin fuel reels0 w)),
       snd (SlotMachine.spin fuel reels0 w))
  | flipCoin c side0 =>
      (snd (fst (CoinFlip.flip c side0 w)), snd (CoinFlip.flip c side0 w))
  | rollDice dice0 =>
      (snd (fst (DiceRoll.roll fuel dice0 w)),
       snd (DiceRoll.roll fuel dice0 w))
  end.
Proof.
  destruct p; unfold playRound, bind, ret.
  - destruct (SlotMachine.spin fuel reels0 w) as [[? ?] ?]; reflexivity.
  - destruct (CoinFlip.flip userChoice side0 w) as [[? ?] ?]; reflexivity.
  - destruct (DiceRoll.roll fuel dice0 w) as [[? ?] ?]; reflexivity.
Qed.

(** C5: a round of any of the three games that resolves as a loss
    leaves [wins], [balance], [showVault] and [history] as they were
    and does not set [lastResult]; [currentGame] is untouched as well,
    and [isSpinning] is back to false. *)
Theorem losing_round_frame (w : World) (fuel : nat) (p : Play) :
  fst (playRound fuel p w) = lost ->
  let s := session w in
  let s' := session (snd (playRound fuel p w)) in
  wins s' = wins s
  /\ balance s' = balance s
  /\ showVault s' = showVault s
  /\ history s' = history s
  /\ lastResult s' = lastResult s
  /\ currentGame s' = currentGame s
  /\ isSpinning s' = false.
Proof.
  rewrite playRound_run. intros Hlost s s'. subst s s'.
  destruct (isSpinning (session w)) eqn:E.
  - destruct p; cbn [fst snd] in Hlost.
    + rewrite spin_guard in Hlost by exact E. discriminate.
    + rewrite flip_guard in Hlost by exact E. discriminate.
    + rewrite roll_guard in Hlost by exact E. discriminate.
  - destruct p; cbn [fst snd] in *.
    + destruct (le_lt_dec 21 fuel) as [Hf|Hf].
      * rewrite spin_run in * by assumption.
        rewrite slot_resolve_run in *. cbv zeta in *.
        destruct (Qgtb _ _); [discriminate|].
        destruct (strictEq _ _ && strictEq _ _); [discriminate|].
        cbn. repeat split.
      * rewrite spin_short in Hlost by (assumption || lia). discriminate.
    + rewrite flip_run in * by exact E. cbv zeta in *.
      destruct (CoinFlip.Side_eqb _ _); [discriminate|].
      cbn. repeat split.
    + destruct (le_lt_dec 16 fuel) as [Hf|Hf].
      * rewrite roll_run in * by assumption.
        rewrite dice_resolve_run in *. cbv zeta in *.
        destruct (3 <? _); [discriminate|].
        cbn. repeat split.
      * rewrite roll_short in Hlost by (assumption || lia). discriminate.
Qed.

Lemma losing_round_frame_witness :
  let w := snd (handleWin (initialWorld (SlotOdds.stream 0 (1 # 2) 0 0))) in
  let p := spinReels SlotMachine.initialReels in
  fst (playRound 21 p w) = lost
  /\ balance (session (snd (playRound 21 p w))) = 400
  /\ lastResult (session (snd (playRound 21 p w))) = Some "+$400!"%string.
Proof.
  intros w p.
  assert (Hlost : fst (playRound 21 p w) = lost) by (vm_compute; reflexivity).
  split; [exact Hlost|].
  destruct (losing_round_frame w 21 p Hlost) as (_ & Hb & _ & _ & Hl & _).
  split; [rewrite Hb | rewrite Hl]; reflexivity.
Defined.

Example losing_flip :
  let w := initialWorld (fun _ => 3 # 4) in
  playRound 0 (flipCoin CoinFlip.tails CoinFlip.heads) w
  = (lost, coinLanded w).
Proof. vm_compute. reflexivity. Qed.

Example losing_roll :
  let w := initialWorld (fun _ => 1 # 4) in
  fst (playRound 16 (rollDice 1) w) = lost
  /\ session (snd (playRound 16 (rollDice 1) w)) = initialState.
Proof. vm_compute. split; reflexivity. Qed.



(** Whether a spin on the fresh page wins depends on the draws only
    through the comparison with [0.4] and the three reel indices, so
    it is constant on the cells [winProbability] sums over. *)
Lemma spinWins_cells (rnd : nat -> Q) :
  unitStream rnd ->
  SlotOdds.spinWins rnd =
  Qgtb (rnd 66%nat) (2 # 5)
  || ((randomIndex (rnd 63%nat) 6 =? randomIndex (rnd 64%nat) 6)
      && (randomIndex (rnd 64%nat) 6 =? randomIndex (rnd 65%nat) 6)).
Proof.
  intros Hu. unfold SlotOdds.spinWins.
  rewrite spin_run by (reflexivity || lia).
  rewrite slot_resolve_run. cbv zeta.
  change (draw (afterTicks 3 100 21 (roundStarted (initialWorld rnd))) 3)
    with (rnd 66%nat).
  change (draw (afterTicks 3 100 21 (roundStarted (initialWorld rnd))) 0)
    with (rnd 63%nat).
  change (draw (afterTicks 3 100 21 (roundStarted (initialWorld rnd))) 1)
    with (rnd 64%nat).
  change (draw (afterTicks 3 100 21 (roundStarted (initialWorld rnd))) 2)
    with (rnd 65%nat).
  destruct (Qgtb (rnd 66%nat) (2 # 5)); [reflexivity|].
  unfold symbolOf.
  rewrite !strictEq_symbols by (apply randomIndex_range; [lia | apply Hu]).
  cbn [orb].
  destruct (_ && _); reflexivity.
Qed.




(** ** The dice round *)


(** Whether a roll on the fresh page wins depends on the draws only
    through the face of the seventeenth. *)
Lemma rollWins_cells (rnd : nat -> Q) :
  DiceOdds.rollWins rnd = (3 <? DiceRoll.face (rnd 16%nat)).
Proof.
  unfold DiceOdds.rollWins.
  rewrite roll_run by (reflexivity || lia).
  rewrite dice_resolve_run. cbv zeta.
  change (draw (afterTicks 1 80 16 (roundStarted (initialWorld rnd))) 0)
    with (rnd 16%nat).
  destruct (3 <? _); reflexivity.
Qed.



(** Fewer than 16 firings leave the roll unresolved, fewer than 21 the
    spin. *)
Lemma rounds_need_all_ticks (w : World) :
  isSpinning (session w) = false ->
  snd (fst (DiceRoll.roll 15 1 w)) = pending
  /\ snd (fst (SlotMachine.spin 20 SlotMachine.initialReels w)) = pending.
Proof.
  intros E. split; [apply roll_short | apply spin_short]; (assumption || lia).
Qed.

(** * Further properties of the rounds and of the page *)

(** ** One round *)


Lemma playRound_summary (fuel : nat) (p : Play) (w : World) :
  isSpinning (session w) = false ->
  (21 <= fuel)%nat ->
  playRound fuel p w =
  if roundWins p w then (won, snd (handleWin (landed p w)))
  else (lost, landed p w).
Proof.
  intros E Hfuel. rewrite playRound_run. destruct p.
  - rewrite spin_run by assumption. rewrite slot_resolve_run. cbv zeta.
    set (W := afterTicks 3 100 21 (roundStarted w)).
    change (draw W 0) with (draw w 63). change (draw W 1) with (draw w 64).
    change (draw W 2) with (draw w 65). change (draw W 3) with (draw w 66).
    unfold roundWins, landed, roundDraws, roundForced.
    destruct (Qgtb (draw w 66) (2 # 5)); cbn [orb];
      [|destruct (strictEq _ _ && strictEq _ _)]; reflexivity.
  - rewrite flip_run by exact E. cbv zeta.
    unfold roundWins, coinSide.
    destruct (CoinFlip.Side_eqb _ userChoice); reflexivity.
  - rewrite roll_run by (assumption || lia). rewrite dice_resolve_run.
    cbv zeta.
    change (draw (afterTicks 1 80 16 (roundStarted w)) 0) with (draw w 16).
    unfold roundWins.
    destruct (3 <? DiceRoll.face (draw w 16)); reflexivity.
Qed.




(** X2: a round started while the lock is free resolves, once its
    timer has fired often enough, as a win or a loss; when it has the
    lock is free again, the selected game is the same and the stream
    of random numbers is untouched. *)
Theorem round_resolves_and_unlocks (fuel : nat) (p : Play) (w : World) :
  isSpinning (session w) = false ->
  (21 <= fuel)%nat ->
  let outcome := fst (playRound fuel p w) in
  let w' := snd (playRound fuel p w) in
  (outcome = won \/ outcome = lost)
  /\ isSpinning (session w') = false
  /\ currentGame (session w') = currentGame (session w)
  /\ rand w' = rand w.
Proof.
  intros E Hfuel outcome w'. subst outcome w'.
  rewrite playRound_summary by assumption.
  destruct (roundWins p w); cbn [fst snd]; rewrite ?handleWin_run;
    cbn [snd session rand landed winUpdate spinningUpdate isSpinning
         currentGame]; auto.
Qed.

Lemma round_resolves_and_unlocks_witness :
  let w := initialWorld (fun _ => 1 # 4) in
  isSpinning (session w) = false
  /\ (21 <= 21)%nat
  /\ isSpinning (session (snd (playRound 21 (rollDice 1) w))) = false.
Proof.
  intros w. split; [reflexivity|]. split; [lia|].
  exact (proj1 (proj2 (round_resolves_and_unlocks 21 (rollDice 1) w
                         eq_refl (le_n 21)))).
Defined.

(** X3: a round that resolves as a win applies the win transition
    exactly once, to the session with the lock released: the amount is
    computed from the last number the round drew and lies in 400..500,
    [wins] grows by one, [balance] by the amount, and the entry put in
    front of [history] names the game that was selected. *)
Theorem winning_round_effect (fuel : nat) (p : Play) (w : World) :
  isSpinning (session w) = false ->
  (21 <= fuel)%nat ->
  unitStream (rand w) ->
  fst (playRound fuel p w) = won ->
  let w' := snd (playRound fuel p w) in
  let amount := winAmountOf (rand w (Nat.pred (cursor w'))) in
  400 <= amount <= 500
  /\ session w' = winUpdate amount (spinningUpdate false (session w))
  /\ wins (session w') = wins (session w) + 1
  /\ balance (session w') = balance (session w) + amount
  /\ hd_error (history (session w')) = Some (mkEntry (currentGame (session w)) win).
Proof.
  intros E Hfuel Hu Hwon w' amount. subst w' amount.
  rewrite playRound_summary in * by assumption.
  destruct (roundWins p w); [|discriminate].
  cbn [snd]. rewrite handleWin_run.
  cbn [snd cursor session Nat.pred landed].
  unfold draw. cbn [rand cursor landed Nat.add].
  split; [apply winAmountOf_range, Hu|].
  repeat (split; [reflexivity|]). reflexivity.
Qed.

Lemma winning_round_effect_witness :
  let w := initialWorld (fun _ => 3 # 4) in
  isSpinning (session w) = false
  /\ (21 <= 21)%nat
  /\ unitStream (rand w)
  /\ fst (playRound 21 (rollDice 1) w) = won
  /\ balance (session (snd (playRound 21 (rollDice 1) w))) = 475.
Proof.
  intros w.
  assert (Hu : unitStream (rand w))
    by (intros n; split; vm_compute; [discriminate | reflexivity]).
  assert (Hwon : fst (playRound 21 (rollDice 1) w) = won)
    by (vm_compute; reflexivity).
  split; [reflexivity|]. split; [lia|]. split; [exact Hu|].
  split; [exact Hwon|].
  destruct (winning_round_effect 21 (rollDice 1) w eq_refl (le_n 21) Hu Hwon)
    as (_ & _ & _ & Hb & _).
  rewrite Hb. vm_compute. reflexivity.
Defined.

(** X4: what a started round costs, whatever its outcome.  A spin
    takes 21 firings of 100 ms, a flip one of 1000 ms, a roll 16 of
    80 ms.  A spin draws 67 numbers when it loses, 68 when the reels
    match by themselves and 69 when the win is forced; a flip draws 1
    or 2 and a roll 17 or 18, the extra one being the win amount. *)
Theorem round_cost (fuel : nat) (p : Play) (w : World) :
  isSpinning (session w) = false ->
  (21 <= fuel)%nat ->
  let outcome := fst (playRound fuel p w) in
  let w' := snd (playRound fuel p w) in
  fired w' =
    (match p with spinReels _ => 21 | flipCoin _ _ => 1 | rollDice _ => 16 end
     + fired w)%nat
  /\ clock w' =
     clock w
     + match p with spinReels _ => 2100 | flipCoin _ _ => 1000 | rollDice _ => 1280 end
  /\ cursor w' =
     (match p with
      | spinReels _ =>
          if Qgtb (draw w 66) (2 # 5) then 69
          else if isWon outcome then 68 else 67
      | flipCoin _ _ => if isWon outcome then 2 else 1
      | rollDice _ => if isWon outcome then 18 else 17
      end + cursor w)%nat.
Proof.
  intros E Hfuel outcome w'. subst outcome w'.
  rewrite playRound_summary by assumption.
  destruct p; unfold roundWins;
    match goal with
    | |- context [Qgtb (draw w 66) (2 # 5) || ?b] =>
        destruct (Qgtb (draw w 66) (2 # 5)) eqn:F; cbn [orb];
        [|destruct b]
    | |- context [if ?b then (won, _) else _] => destruct b
    end;
    cbn [fst snd isWon]; rewrite ?handleWin_run;
    unfold landed, roundDraws, roundForced; rewrite ?F;
    cbn [snd fired clock cursor roundTicks roundDelay Z.of_nat];
    (split; [reflexivity|]); (split; [reflexivity|]); reflexivity.
Qed.

Lemma round_cost_witness :
  let w := initialWorld (fun _ => 3 # 4) in
  let p := spinReels SlotMachine.initialReels in
  isSpinning (session w) = false
  /\ (21 <= 21)%nat
  /\ clock (snd (playRound 21 p w)) = 2100
  /\ cursor (snd (playRound 21 p w)) = 69%nat.
Proof.
  intros w p. split; [reflexivity|]. split; [lia|].
  destruct (round_cost 21 p w eq_refl (le_n 21)) as (_ & Hc & Hd).
  split; [exact Hc | exact Hd].
Defined.

(** X5: the sounds of a started round.  It plays the spin sound once
    at its start; a loss plays nothing more; a win then plays the win
    sound and the confetti burst, followed by the vault sound exactly
    when the vault is open after that win, which is the case for every
    win from the third one on. *)
Theorem round_sounds (fuel : nat) (p : Play) (w : World) :
  isSpinning (session w) = false ->
  (21 <= fuel)%nat ->
  let outcome := fst (playRound fuel p w) in
  let w' := snd (playRound fuel p w) in
  (outcome = lost -> cues w' = snd_spin :: cues w)
  /\ (outcome = won ->
      cues w' =
      (if showVault (session w') then [snd_vault] else [])
        ++ burst :: snd_win :: snd_spin :: cues w)
  /\ (outcome = won ->
      hd_error (cues w') = Some snd_vault <-> 3 <= wins (session w) + 1).
Proof.
  intros E Hfuel outcome w'. subst outcome w'.
  rewrite playRound_summary by assumption.
  destruct (roundWins p w); cbn [fst snd]; rewrite ?handleWin_run;
    cbn [snd cues session landed winUpdate showVault spinningUpdate wins].
  - split; [discriminate|]. split; [reflexivity|]. intros _.
    destruct (3 <=? wins (session w) + 1) eqn:G; cbn.
    + apply Z.leb_le in G. split; auto.
    + apply Z.leb_gt in G. split; [discriminate | lia].
  - split; [reflexivity|]. split; discriminate.
Qed.

Lemma round_sounds_witness :
  let w := initialWorld (fun _ => 1 # 4) in
  isSpinning (session w) = false
  /\ (21 <= 21)%nat
  /\ fst (playRound 21 (rollDice 1) w) = lost
  /\ cues (snd (playRound 21 (rollDice 1) w)) = [snd_spin].
Proof.
  intros w. split; [reflexivity|]. split; [lia|].
  assert (Hl : fst (playRound 21 (rollDice 1) w) = lost)
    by (vm_compute; reflexivity).
  split; [exact Hl|].
  exact (proj1 (round_sounds 21 (rollDice 1) w eq_refl (le_n 21)) Hl).
Defined.




(** ** The coin round *)

(** Whether a flip on the fresh page wins depends on the draws only
    through the comparison of the first one with [0.5]. *)
Lemma flipWins_cells (c : CoinFlip.Side) (rnd : nat -> Q) :
  CoinOdds.flipWins c rnd = CoinFlip.Side_eqb (coinSide (rnd 0%nat)) c.
Proof.
  unfold CoinOdds.flipWins. rewrite flip_run by reflexivity. cbv zeta.
  change (draw (initialWorld rnd) 0) with (rnd 0%nat). fold (coinSide (rnd 0%nat)).
  destruct (CoinFlip.Side_eqb _ c); reflexivity.
Qed.




(** ** Sessions of clicks *)












(** ** What the page shows *)




(** X11: the result overlay.  After a round that was won it shows
    "+$<amount>!" for the amount credited; a round that was lost
    leaves on the page whatever the overlay showed before it, so the
    label of an earlier win stays; selecting a game, and taking the
    lock, take the overlay off the page. *)
Theorem result_overlay (fuel : nat) (p : Play) (w : World) :
  isSpinning (session w) = false ->
  (21 <= fuel)%nat ->
  let outcome := fst (playRound fuel p w) in
  let w' := snd (playRound fuel p w) in
  (outcome = won ->
   resultOverlay (session w') =
   Some ("+$" ++ toString (balance (session w') - balance (session w)) ++ "!")%string)
  /\ (outcome = lost -> resultOverlay (session w') = resultOverlay (session w))
  /\ (forall g, resultOverlay (session (snd (setGame g w))) = None)
  /\ resultOverlay (session (snd (setIsSpinning true w))) = None.
Proof.
  intros E Hfuel outcome w'. subst outcome w'.
  rewrite playRound_summary by assumption.
  split; [|split; [|split]].
  - destruct (roundWins p w); cbn [fst snd]; [|discriminate]. intros _.
    rewrite handleWin_run.
    cbn [snd session landed winUpdate spinningUpdate balance].
    replace (balance (session w) + winAmountOf (draw (landed p w) 0)
             - balance (session w))
      with (winAmountOf (draw (landed p w) 0)) by lia.
    unfold resultOverlay. cbn. reflexivity.
  - destruct (roundWins p w); cbn [fst snd]; [discriminate|]. intros _.
    unfold resultOverlay. cbn [session landed spinningUpdate lastResult
      isSpinning]. rewrite E. reflexivity.
  - intros g. rewrite setGame_run, E. reflexivity.
  - unfold resultOverlay. cbn. rewrite andb_false_r. reflexivity.
Qed.

Lemma result_overlay_witness :
  let w := snd (handleWin (initialWorld (fun _ => 1 # 4))) in
  isSpinning (session w) = false
  /\ (21 <= 21)%nat
  /\ fst (playRound 21 (rollDice 1) w) = lost
  /\ resultOverlay (session (snd (playRound 21 (rollDice 1) w)))
     = Some "+$425!"%string.
Proof.
  intros w. split; [reflexivity|]. split; [lia|].
  assert (Hl : fst (playRound 21 (rollDice 1) w) = lost)
    by (vm_compute; reflexivity).
  split; [exact Hl|].
  rewrite (proj1 (proj2 (result_overlay 21 (rollDice 1) w eq_refl (le_n 21))) Hl).
  reflexivity.
Defined.
